(** * Course-home data layer: thunks, entity store and fetch life cycle

    A shallow embedding of [src/course-home/data/thunks.js] together with
    the collaborators it drives (the redux store, the logging service and
    the HTTP API), and of the courseware thunks exercised by the
    integration tests of the data layer.

    The JavaScript run time is modelled by a small event loop: a thunk is
    a program of synchronous effects ([dispatch], [logError], [getState])
    and of promise registrations ([Promise.allSettled(..).then], [.then],
    [await]); the environment settles in-flight requests one at a time, in
    any order and with any outcome, and each settlement runs the reaction
    that became ready. *)

From stdpp Require Import gmap strings list fin_maps pretty.

Local Open Scope string_scope.
Local Open Scope list_scope.

(** ** JavaScript values and records *)

(** The values a JSON payload or a thrown error can hold.  Numbers are
    the integer-valued ones; objects are finite maps from property names
    to values. *)
#[warnings="-register-all"]
Inductive jsval : Type :=
| VUndefined
| VNull
| VBool (b : bool)
| VNum (n : Z)
| VStr (s : string)
| VObj (fields : gmap string jsval).

Abbreviation record := (gmap string jsval).

(** [r.f]: reading a property that is not there gives [undefined]. *)
Definition prop (r : record) (f : string) : jsval :=
  default VUndefined (r !! f).

(** [obj[v]]: a value used as a property key is turned into a string. *)
Definition to_key (v : jsval) : string :=
  match v with
  | VUndefined => "undefined"
  | VNull => "null"
  | VBool true => "true"
  | VBool false => "false"
  | VNum n => pretty n
  | VStr s => s
  | VObj _ => "[object Object]"
  end.

(** [{ ...base, ...value }]: the later spread wins on shared names. *)
Definition spread (base value : record) : record := value ∪ base.

(** ** The store *)

Inductive status := idle | pending | loaded | denied | failed.

Abbreviation table := (gmap string (gmap string jsval)).
Abbreviation model_store := (gmap string (gmap string (gmap string jsval))).

Record app_state := AppState {
  models : model_store;
  courseId : option string;
  courseStatus : status;
  sequenceId : option string;
  sequenceStatus : status;
}.

Definition initial_state : app_state :=
  {| models := ∅; courseId := None; courseStatus := idle;
     sequenceId := None; sequenceStatus := idle |}.

(** Modelled from the spec: the model store of [../../model-store] is not
    among the sources.  [get(entityType, id)] returns the record or the
    absent marker. *)
Definition get (entityType id : string) (m : model_store) : option record :=
  m !! entityType ≫= (.!! id).

(** Modelled from the spec: [merge(entityType, id, partialRecord)] creates
    the record if absent, otherwise shallow-merges the fields, the new
    values overwriting the old ones. *)
Definition merge (entityType id : string) (partialRecord : record)
    (m : model_store) : model_store :=
  let tbl := default ∅ (m !! entityType) in
  <[entityType := <[id := spread (default ∅ (tbl !! id)) partialRecord]> tbl]> m.

(** Modelled from the spec: a compound payload brings several records of
    one entity type, each merged under its own id. *)
Definition merge_map (entityType : string) (modelsMap : table)
    (m : model_store) : model_store :=
  <[entityType :=
      union_with (λ new old, Some (spread old new)) modelsMap
                 (default ∅ (m !! entityType))]> m.

(** ** Actions and reducers *)

Inductive action :=
| addModel (modelType : string) (model : record)
| updateModel (modelType : string) (model : record)
| updateModelsMap (modelType : string) (modelsMap : table)
| fetchTabRequest (courseId : string)
| fetchTabSuccess (courseId : string)
| fetchTabFailure (courseId : string)
| fetchCourseRequest (courseId : string)
| fetchCourseSuccess (courseId : string)
| fetchCourseDenied (courseId : string)
| fetchCourseFailure (courseId : string)
| fetchSequenceRequest (sequenceId : string)
| fetchSequenceSuccess (sequenceId : string)
| fetchSequenceFailure (sequenceId : string).

Definition set_models (f : model_store → model_store) (s : app_state) : app_state :=
  {| models := f (models s); courseId := courseId s;
     courseStatus := courseStatus s; sequenceId := sequenceId s;
     sequenceStatus := sequenceStatus s |}.

Definition set_course (id : string) (st : status) (s : app_state) : app_state :=
  {| models := models s; courseId := Some id; courseStatus := st;
     sequenceId := sequenceId s; sequenceStatus := sequenceStatus s |}.

Definition set_sequence (id : string) (st : status) (s : app_state) : app_state :=
  {| models := models s; courseId := courseId s;
     courseStatus := courseStatus s; sequenceId := Some id;
     sequenceStatus := st |}.

(** Modelled from the spec: the slices ([./slice], [../../model-store])
    are not among the sources.  A model action merges the model under the
    id it carries; a status action records the resource id and moves its
    tracker to the state the action names. *)
Definition reducer (a : action) (s : app_state) : app_state :=
  match a with
  | addModel modelType model
  | updateModel modelType model =>
      set_models (merge modelType (to_key (prop model "id")) model) s
  | updateModelsMap modelType modelsMap =>
      set_models (merge_map modelType modelsMap) s
  | fetchTabRequest id | fetchCourseRequest id => set_course id pending s
  | fetchTabSuccess id | fetchCourseSuccess id => set_course id loaded s
  | fetchCourseDenied id => set_course id denied s
  | fetchTabFailure id | fetchCourseFailure id => set_course id failed s
  | fetchSequenceRequest id => set_sequence id pending s
  | fetchSequenceSuccess id => set_sequence id loaded s
  | fetchSequenceFailure id => set_sequence id failed s
  end.

(** ** Requests and their outcomes *)

Inductive api_call :=
| getCourseHomeCourseMetadata (courseId : string)
| getDatesTabData (courseId : string)
| getOutlineTabData (courseId : string)
| updateCourseDeadlines (courseId : string)
| getCourseMetadata (courseId : string)
| getCourseBlocks (courseId : string)
| getSequenceMetadata (sequenceId : string)
| postSequencePosition (courseId sequenceId : string) (position : jsval).

(** What [Promise.allSettled] reports for one promise:
    [{status: 'fulfilled', value}] or [{status: 'rejected', reason}]. *)
Inductive outcome :=
| Fulfilled (value : record)
| Rejected (reason : jsval).

Definition is_fulfilled (o : outcome) : bool :=
  match o with Fulfilled _ => true | Rejected _ => false end.

(** ** Programs *)

(** The body of a thunk or of a promise callback.  Every constructor but
    [Stop] and [await] takes the rest of the body as its last argument. *)
Inductive prog : Type :=
| Stop
| dispatch (a : action) (k : prog)
| dispatch_thunk (thunk : prog) (k : prog)
| logError (error : jsval) (k : prog)
| getState (k : app_state → prog)
| allSettled_then (p1 p2 : api_call) (cb : outcome → outcome → prog) (k : prog)
| then_ (p : api_call) (onFulfilled : record → prog) (k : prog)
| await (p : api_call) (resume : record → prog) (catch : jsval → prog).

Notation "c ;; k" := (c k) (at level 100, k at level 200, right associativity,
                           only parsing).

(** ** The event loop *)

Inductive event :=
| Invoked (call : nat)
| Resolved (call : nat)
| Dispatched (a : action)
| Logged (error : jsval)
| Issued (id : nat) (c : api_call)
| Settled (id : nat) (o : outcome)
| Unhandled (reason : jsval).

Inductive waiter :=
| WAllSettled (id1 : nat) (r1 : option outcome) (id2 : nat) (r2 : option outcome)
              (cb : outcome → outcome → prog)
| WThen (id : nat) (onFulfilled : record → prog)
| WAwait (id : nat) (ctx : option nat) (resume : record → prog)
         (catch : jsval → prog).

Record world := World {
  state : app_state;
  trace : list event;
  next_req : nat;
  next_call : nat;
  waiting : list waiter;
}.

Definition boot (s : app_state) : world :=
  {| state := s; trace := []; next_req := 0; next_call := 0; waiting := [] |}.

Definition emit (e : event) (w : world) : world :=
  {| state := state w; trace := trace w ++ [e]; next_req := next_req w;
     next_call := next_call w; waiting := waiting w |}.

Definition set_state (s : app_state) (w : world) : world :=
  {| state := s; trace := trace w; next_req := next_req w;
     next_call := next_call w; waiting := waiting w |}.

Definition set_waiting (ws : list waiter) (w : world) : world :=
  {| state := state w; trace := trace w; next_req := next_req w;
     next_call := next_call w; waiting := ws |}.

Definition fresh_call (w : world) : world :=
  {| state := state w; trace := trace w; next_req := next_req w;
     next_call := S (next_call w); waiting := waiting w |}.

(** Calling an API function: the request gets the next id and is now in
    flight. *)
Definition issue (c : api_call) (w : world) : world :=
  {| state := state w; trace := trace w ++ [Issued (next_req w) c];
     next_req := S (next_req w); next_call := next_call w;
     waiting := waiting w |}.

Definition register (wt : waiter) (w : world) : world :=
  set_waiting (waiting w ++ [wt]) w.

(** Runs a body until it ends or suspends.  [ctx] is the call whose
    promise the body belongs to ([Some] for the body of an [async]
    function, [None] for a plain callback): reaching the end of an
    [async] body fulfils its promise. *)
Fixpoint exec (ctx : option nat) (p : prog) (w : world) : world :=
  match p with
  | Stop =>
      match ctx with
      | Some call => emit (Resolved call) w
      | None => w
      end
  | dispatch a k =>
      exec ctx k (emit (Dispatched a) (set_state (reducer a (state w)) w))
  | dispatch_thunk thunk k =>
      let call := next_call w in
      exec ctx k (exec (Some call) thunk (emit (Invoked call) (fresh_call w)))
  | logError error k => exec ctx k (emit (Logged error) w)
  | getState k => exec ctx (k (state w)) w
  | allSettled_then p1 p2 cb k =>
      let id1 := next_req w in
      let id2 := S id1 in
      exec ctx k
        (register (WAllSettled id1 None id2 None cb) (issue p2 (issue p1 w)))
  | then_ p onFulfilled k =>
      let id := next_req w in
      exec ctx k (register (WThen id onFulfilled) (issue p w))
  | await p resume catch =>
      let id := next_req w in
      register (WAwait id ctx resume catch) (issue p w)
  end.

(** The caller invokes a thunk: [thunk(dispatch, getState)]. *)
Definition invoke (thunk : prog) (w : world) : world :=
  exec None (dispatch_thunk thunk Stop) w.

Inductive reaction :=
| Keep (wt : waiter)
| Run (ctx : option nat) (p : prog)
| Reject (reason : jsval).

(** What a waiter does when request [id] settles with [o]; [None] when it
    does not wait for [id]. *)
Definition react (id : nat) (o : outcome) (wt : waiter) : option reaction :=
  match wt with
  | WAllSettled id1 r1 id2 r2 cb =>
      if Nat.eqb id id1 then
        match r1, r2 with
        | None, Some o2 => Some (Run None (cb o o2))
        | None, None => Some (Keep (WAllSettled id1 (Some o) id2 None cb))
        | Some _, _ => None
        end
      else if Nat.eqb id id2 then
        match r2, r1 with
        | None, Some o1 => Some (Run None (cb o1 o))
        | None, None => Some (Keep (WAllSettled id1 None id2 (Some o) cb))
        | Some _, _ => None
        end
      else None
  | WThen id' onFulfilled =>
      if Nat.eqb id id' then
        Some (match o with
              | Fulfilled value => Run None (onFulfilled value)
              | Rejected reason => Reject reason
              end)
      else None
  | WAwait id' ctx resume catch =>
      if Nat.eqb id id' then
        Some (Run ctx (match o with
                       | Fulfilled value => resume value
                       | Rejected reason => catch reason
                       end))
      else None
  end.

Fixpoint deliver (id : nat) (o : outcome) (ws : list waiter)
    : option (list waiter * reaction) :=
  match ws with
  | [] => None
  | wt :: ws' =>
      match react id o wt with
      | Some (Keep wt') => Some (wt' :: ws', Keep wt')
      | Some r => Some (ws', r)
      | None =>
          match deliver id o ws' with
          | Some (l, r) => Some (wt :: l, r)
          | None => None
          end
      end
  end.

(** The environment settles request [id] with [o].  A request nobody waits
    for (never issued, or settled before) changes nothing. *)
Definition settle (id : nat) (o : outcome) (w : world) : world :=
  match deliver id o (waiting w) with
  | None => w
  | Some (ws, r) =>
      let w1 := emit (Settled id o) (set_waiting ws w) in
      match r with
      | Keep _ => w1
      | Run ctx p => exec ctx p w1
      | Reject reason => emit (Unhandled reason) w1
      end
  end.

Definition run (schedule : list (nat * outcome)) (w : world) : world :=
  foldl (λ w' s, settle s.1 s.2 w') w schedule.

(** ** [thunks.js] *)

Definition fetchTab (courseId tab : string) (getTabData : string → api_call)
    : prog :=
  dispatch (fetchTabRequest courseId) ;;
  allSettled_then
    (getCourseHomeCourseMetadata courseId)
    (getTabData courseId)
    (λ courseHomeCourseMetadataResult tabDataResult,
       let fetchedCourseHomeCourseMetadata :=
         is_fulfilled courseHomeCourseMetadataResult in
       let fetchedTabData := is_fulfilled tabDataResult in
       match courseHomeCourseMetadataResult with
       | Fulfilled value =>
           dispatch (addModel "courses"
                       (spread {[ "id" := VStr courseId ]} value))
       | Rejected reason => logError reason
       end ;;
       match tabDataResult with
       | Fulfilled value =>
           dispatch (addModel tab (spread {[ "id" := VStr courseId ]} value))
       | Rejected reason => logError reason
       end ;;
       (if fetchedCourseHomeCourseMetadata && fetchedTabData
        then dispatch (fetchTabSuccess courseId)
        else dispatch (fetchTabFailure courseId)) ;;
       Stop) ;;
  Stop.

Definition fetchDatesTab (courseId : string) : prog :=
  fetchTab courseId "dates" getDatesTabData.

Definition fetchOutlineTab (courseId : string) : prog :=
  fetchTab courseId "outline" getOutlineTabData.

Definition resetDeadlines (courseId : string) (getTabData : string → prog)
    : prog :=
  then_ (updateCourseDeadlines courseId)
        (λ _, dispatch_thunk (getTabData courseId) ;; Stop) ;;
  Stop.

(** ** The courseware thunks driven by the integration tests *)

Definition as_record (v : jsval) : option record :=
  match v with VObj r => Some r | _ => None end.

(** The records a normalized payload carries for one entity type:
    [payload[entityType]] maps each id to its partial record. *)
Definition entities (payload : record) (entityType : string) : table :=
  match prop payload entityType with
  | VObj byId => omap as_record byId
  | _ => ∅
  end.

(** Modelled from the spec: the authorization-denial signal of a course
    metadata payload, an access-check field that is false (the tests
    build it as [can_load_courseware: { has_access: false }]; the API
    layer hands payloads over camel-cased). *)
Definition access_denied (metadata : record) : bool :=
  match prop metadata "canLoadCourseware" with
  | VObj access =>
      match prop access "hasAccess" with
      | VBool false => true
      | _ => false
      end
  | _ => false
  end.

(** Modelled from the spec: [fetchCourse] of the courseware thunks is not
    among the sources (only its tests are).  Fetch Orchestrator contract:
    emit [pending]; issue the metadata and the block-tree requests
    together and wait for both; write each successful payload (the
    metadata under the course id, the blocks of the tree as sequences and
    units under their own ids) and log each failure; then classify:
    [failed] if a request failed, else [denied] if the metadata carries
    the denial signal, else [loaded]. *)
Definition fetchCourse (courseId : string) : prog :=
  dispatch (fetchCourseRequest courseId) ;;
  allSettled_then
    (getCourseMetadata courseId)
    (getCourseBlocks courseId)
    (λ courseMetadataResult courseBlocksResult,
       match courseMetadataResult with
       | Fulfilled value =>
           dispatch (addModel "courses"
                       (spread value {[ "id" := VStr courseId ]}))
       | Rejected reason => logError reason
       end ;;
       match courseBlocksResult with
       | Fulfilled value =>
           λ k,
             dispatch (updateModelsMap "sequences"
                         (entities value "sequences")) ;;
             dispatch (updateModelsMap "units" (entities value "units")) ;;
             k
       | Rejected reason => logError reason
       end ;;
       match courseMetadataResult, courseBlocksResult with
       | Fulfilled metadata, Fulfilled _ =>
           if access_denied metadata
           then dispatch (fetchCourseDenied courseId)
           else dispatch (fetchCourseSuccess courseId)
       | _, _ => dispatch (fetchCourseFailure courseId)
       end ;;
       Stop) ;;
  Stop.

(** Modelled from the spec: [fetchSequence] is not among the sources.  One
    request; on success the sequence part of the payload is merged under
    the sequence id and each unit it lists under the unit's own id; on
    failure the error is logged and nothing is written. *)
Definition fetchSequence (sequenceId : string) : prog :=
  dispatch (fetchSequenceRequest sequenceId) ;;
  await (getSequenceMetadata sequenceId)
    (λ value,
       dispatch (updateModel "sequences"
                   (spread (default ∅ (as_record (prop value "sequence")))
                           {[ "id" := VStr sequenceId ]})) ;;
       dispatch (updateModelsMap "units" (entities value "units")) ;;
       dispatch (fetchSequenceSuccess sequenceId) ;;
       Stop)
    (λ error,
       logError error ;;
       dispatch (fetchSequenceFailure sequenceId) ;;
       Stop).

(** The position the store holds for a sequence:
    [models.sequences[sequenceId].position]. *)
Definition stored_position (sequenceId : string) (s : app_state) : jsval :=
  prop (default ∅ (get "sequences" sequenceId (models s))) "position".

(** Modelled from the spec: [saveSequencePosition] is not among the
    sources.  Optimistic Mutation Orchestrator contract: read the current
    position as the previous value; merge the new value at once; issue the
    write; on success change nothing more; on failure merge the previous
    value back and report the error. *)
Definition saveSequencePosition (courseId sequenceId : string)
    (position : jsval) : prog :=
  getState (λ st,
    let previousValue := stored_position sequenceId st in
    dispatch (updateModel "sequences"
                {[ "id" := VStr sequenceId; "position" := position ]}) ;;
    await (postSequencePosition courseId sequenceId position)
      (λ _, Stop)
      (λ error,
         dispatch (updateModel "sequences"
                     {[ "id" := VStr sequenceId;
                        "position" := previousValue ]}) ;;
         logError error ;;
         Stop)).

(** ** Observations on traces *)

Definition is_terminal (a : action) : bool :=
  match a with
  | fetchTabSuccess _ | fetchTabFailure _
  | fetchCourseSuccess _ | fetchCourseDenied _ | fetchCourseFailure _
  | fetchSequenceSuccess _ | fetchSequenceFailure _ => true
  | _ => false
  end.

Definition terminal_of (e : event) : option action :=
  match e with
  | Dispatched a => if is_terminal a then Some a else None
  | _ => None
  end.

Definition logged_of (e : event) : option jsval :=
  match e with Logged error => Some error | _ => None end.

Definition dispatched_of (e : event) : option action :=
  match e with Dispatched a => Some a | _ => None end.

Definition settled_of (e : event) : option nat :=
  match e with Settled id _ => Some id | _ => None end.

Definition unhandled_of (e : event) : option jsval :=
  match e with Unhandled reason => Some reason | _ => None end.

Definition resolved_of (e : event) : option nat :=
  match e with Resolved call => Some call | _ => None end.

(** The terminal status transitions, the [logError] calls, the dispatched
    actions and the settled requests of a trace, each in order. *)
Definition terminals (tr : list event) : list action := omap terminal_of tr.
Definition logged (tr : list event) : list jsval := omap logged_of tr.
Definition dispatched (tr : list event) : list action := omap dispatched_of tr.
Definition settled (tr : list event) : list nat := omap settled_of tr.
Definition unhandled (tr : list event) : list jsval := omap unhandled_of tr.
Definition resolved (tr : list event) : list nat := omap resolved_of tr.

(** One field of one record of the store. *)
Definition field (entityType id f : string) (m : model_store) : option jsval :=
  get entityType id m ≫= (.!! f).

(** ** Runs of the thunks *)

(** [fetchTab]'s thunk has been invoked on a store in state [s] and has
    returned; requests 0 (course metadata) and 1 (tab data) are in
    flight. *)
Definition tab_started (s : app_state) (courseId tab : string)
    (getTabData : string → api_call) : world :=
  invoke (fetchTab courseId tab getTabData) (boot s).

(** Both requests have settled, the metadata request first or last. *)
Definition tab_settled (s : app_state) (courseId tab : string)
    (getTabData : string → api_call) (metadata_first : bool)
    (metadata tabData : outcome) : world :=
  run (if metadata_first then [(0, metadata); (1, tabData)]
       else [(1, tabData); (0, metadata)])
      (tab_started s courseId tab getTabData).

(** The model [fetchTab] hands to [addModel]: [{ id: courseId, ...value }]. *)
Definition tab_model (courseId : string) (value : record) : record :=
  spread {[ "id" := VStr courseId ]} value.

Definition deadlines_started (s : app_state) (courseId : string)
    (getTabData : string → prog) : world :=
  invoke (resetDeadlines courseId getTabData) (boot s).

Definition course_settled (s : app_state) (courseId : string)
    (metadata_first : bool) (metadata blocks : outcome) : world :=
  run (if metadata_first then [(0, metadata); (1, blocks)]
       else [(1, blocks); (0, metadata)])
      (invoke (fetchCourse courseId) (boot s)).

Definition position_saving (s : app_state) (courseId sequenceId : string)
    (newValue : jsval) : world :=
  invoke (saveSequencePosition courseId sequenceId newValue) (boot s).

(** A sequence is fetched once its course has been: the course fetch has
    run to the end on successful payloads, then [fetchSequence] is invoked
    (its request gets id 2). *)
Definition course_loaded (s : app_state) (courseId : string)
    (metadata blocks : record) : world :=
  course_settled s courseId true (Fulfilled metadata) (Fulfilled blocks).

Definition sequence_after_course (s : app_state) (courseId sequenceId : string)
    (metadata blocks : record) (o : outcome) : world :=
  settle 2 o
    (invoke (fetchSequence sequenceId)
       (course_loaded s courseId metadata blocks)).

(** What a sequence payload supplies for one field of one record. *)
Definition sequence_supplies (sequenceId : string) (payload : record)
    (entityType id f : string) : option jsval :=
  if bool_decide (entityType = "sequences" ∧ id = sequenceId) then
    spread (default ∅ (as_record (prop payload "sequence")))
           {[ "id" := VStr sequenceId ]} !! f
  else if bool_decide (entityType = "units") then
    entities payload "units" !! id ≫= (.!! f)
  else None.

(** Where a run of [fetchTab] stands once the requests listed in [ids]
    have been settled: nothing settled yet, one request settled and the
    other in flight, or both settled. *)
Definition tab_phase (s : app_state) (cid tab : string)
    (getTabData : string → api_call) (ids : list nat) (w : world) : Prop :=
  match bool_decide (0 ∈ ids), bool_decide (1 ∈ ids) with
  | false, false => w = tab_started s cid tab getTabData
  | true, false => ∃ o1, w = settle 0 o1 (tab_started s cid tab getTabData)
  | false, true => ∃ o2, w = settle 1 o2 (tab_started s cid tab getTabData)
  | true, true =>
      ∃ first o1 o2, w = tab_settled s cid tab getTabData first o1 o2
  end.

(** ** Sample data, after the fixtures of the integration tests *)

Definition demo_course : string := "course-v1:edX+DemoX+Demo_Course".
Definition demo_sequence : string := "block-v1:edX+DemoX+type@sequential+block@1".
Definition demo_unit : string := "block-v1:edX+DemoX+type@vertical+block@1".
Definition network_error : jsval := VStr "Network Error".

Definition demo_metadata : record :=
  {[ "title" := VStr "Demonstration Course";
     "canLoadCourseware" := VObj {[ "hasAccess" := VBool true ]} ]}.

Definition forbidden_metadata : record :=
  {[ "title" := VStr "Demonstration Course";
     "canLoadCourseware" := VObj {[ "hasAccess" := VBool false ]} ]}.

Definition demo_dates : record := {[ "courseDateBlocks" := VNull ]}.

Definition demo_blocks : record :=
  {[ "sequences" :=
       VObj {[ demo_sequence := VObj {[ "title" := VStr "Intro" ]} ]};
     "units" :=
       VObj {[ demo_unit := VObj {[ "title" := VStr "Welcome" ]} ]} ]}.

Definition demo_sequence_metadata : record :=
  {[ "sequence" :=
       VObj {[ "title" := VStr "Introduction";
               "gatedContent" := VObj ∅;
               "activeUnitIndex" := VNum 0 ]};
     "units" :=
       VObj {[ demo_unit := VObj {[ "complete" := VNull;
                                    "bookmarked" := VBool false ]} ]} ]}.

(** Unfolds the event loop on a run whose request ids and outcomes'
    constructors are known; the store operations stay folded. *)
Ltac loop :=
  cbv [tab_started tab_settled deadlines_started course_settled
       position_saving course_loaded sequence_after_course
       fetchTab fetchDatesTab fetchOutlineTab resetDeadlines
       fetchCourse fetchSequence saveSequencePosition
       invoke exec settle deliver react run foldl emit register issue
       set_state set_waiting fresh_call boot
       state trace next_req next_call waiting
       fst snd Nat.eqb is_fulfilled andb app].

Ltac loop_in H :=
  cbv [tab_started tab_settled deadlines_started course_settled
       position_saving course_loaded sequence_after_course
       fetchTab fetchDatesTab fetchOutlineTab resetDeadlines
       fetchCourse fetchSequence saveSequencePosition
       invoke exec settle deliver react run foldl emit register issue
       set_state set_waiting fresh_call boot
       state trace next_req next_call waiting
       fst snd Nat.eqb is_fulfilled andb app] in H.

(** Walks a trace given extensionally: [Hi : tr !! i = Some _] with [tr]
    an explicit list.  Each position either contradicts the hypotheses or
    leaves a membership goal on the settled requests before it. *)
Ltac scan_trace Hi i :=
  cbn in Hi;
  first [ discriminate Hi
        | destruct i as [|i];
          [ simplify_eq/=; try done; try (split; set_solver); try lia
          | scan_trace Hi i ] ].

Ltac scan_lookup :=
  match goal with
  | Hi : _ !! ?i = Some _ |- _ => scan_trace Hi i
  end.

(** ** Further observations and runs *)

Definition issued_of (e : event) : option (nat * api_call) :=
  match e with Issued id c => Some (id, c) | _ => None end.

Definition invoked_of (e : event) : option nat :=
  match e with Invoked call => Some call | _ => None end.

(** The requests issued in a trace, with their ids, and the thunk calls
    made, each in order. *)
Definition issued (tr : list event) : list (nat * api_call) := omap issued_of tr.
Definition invoked (tr : list event) : list nat := omap invoked_of tr.

(** [result.reason] of a rejected result. *)
Definition reason_of (o : outcome) : option jsval :=
  match o with Rejected reason => Some reason | Fulfilled _ => None end.

(** The [addModel] action [fetchTab]'s callback dispatches for a fulfilled
    result. *)
Definition tab_write (courseId modelType : string) (o : outcome)
    : option action :=
  match o with
  | Fulfilled value => Some (addModel modelType (tab_model courseId value))
  | Rejected _ => None
  end.

(** The terminal action [fetchTab]'s callback ends with, and the status
    it stands for. *)
Definition tab_terminal (courseId : string) (metadata tabData : outcome)
    : action :=
  if is_fulfilled metadata && is_fulfilled tabData
  then fetchTabSuccess courseId
  else fetchTabFailure courseId.

Definition tab_status (metadata tabData : outcome) : status :=
  if is_fulfilled metadata && is_fulfilled tabData then loaded else failed.


(** [fetchTab] is dispatched again once a first call has run to its end,
    and the same outcomes come back. *)
Definition tab_refetched (s : app_state) (courseId tab : string)
    (getTabData : string → api_call) (metadata tabData : outcome) : world :=
  run [(2, metadata); (3, tabData)]
      (invoke (fetchTab courseId tab getTabData)
         (tab_settled s courseId tab getTabData true metadata tabData)).

(** The dates tab is fetched, then the outline tab, each with success. *)
Definition dates_then_outline (s : app_state) (courseId : string)
    (metadata1 dates metadata2 outline : record) : world :=
  run [(2, Fulfilled metadata2); (3, Fulfilled outline)]
      (invoke (fetchOutlineTab courseId)
         (tab_settled s courseId "dates" getDatesTabData true
            (Fulfilled metadata1) (Fulfilled dates))).

(** [resetDeadlines] is given a [fetchTab] thunk to refetch with; the
    update is fulfilled and the two requests of the refetch (1 and 2)
    settle. *)
Definition deadlines_refetched (s : app_state) (courseId tab : string)
    (getTabData : string → api_call) (response : record)
    (metadata_first : bool) (metadata tabData : outcome) : world :=
  run ((0, Fulfilled response) ::
       (if metadata_first then [(1, metadata); (2, tabData)]
        else [(2, tabData); (1, metadata)]))
      (deadlines_started s courseId (λ c, fetchTab c tab getTabData)).

(** * Properties *)

(** ** The entity store *)

Section store_laws.
Implicit Types (m : model_store) (A B r : record) (t id f : string).

Lemma table_lookup_get t id m :
  default ∅ (default ∅ (m !! t) !! id) = default (∅ : record) (get t id m).
Proof.
  unfold get. destruct (m !! t) as [tbl|]; simpl; [done|].
  by rewrite lookup_empty.
Qed.

Lemma get_merge t id A m :
  get t id (merge t id A m) = Some (A ∪ default ∅ (get t id m)).
Proof.
  unfold merge, spread. rewrite table_lookup_get.
  unfold get at 1. rewrite lookup_insert_eq. simpl.
  by rewrite lookup_insert_eq.
Qed.

Lemma get_merge_other t id t' id' A m :
  (t, id) ≠ (t', id') → get t' id' (merge t id A m) = get t' id' m.
Proof.
  intros Hne. unfold merge, get.
  destruct (decide (t = t')) as [->|Ht].
  - rewrite lookup_insert_eq. simpl.
    rewrite lookup_insert_ne by congruence.
    destruct (m !! t'); simpl; [done|]. by rewrite lookup_empty.
  - by rewrite lookup_insert_ne.
Qed.

Lemma merge_merge t id A B m :
  merge t id B (merge t id A m) = merge t id (B ∪ A) m.
Proof.
  unfold merge at 1. unfold spread.
  rewrite table_lookup_get, get_merge. simpl.
  unfold merge, spread. rewrite table_lookup_get.
  rewrite lookup_insert_eq. simpl.
  rewrite !insert_insert_eq. by rewrite (assoc_L (∪)).
Qed.

Lemma field_merge t id f A m :
  field t id f (merge t id A m) =
    match A !! f with Some v => Some v | None => field t id f m end.
Proof.
  unfold field. rewrite get_merge. simpl.
  rewrite lookup_union. destruct (A !! f) as [v|] eqn:HA.
  - by destruct (default ∅ (get t id m) !! f).
  - rewrite (left_id_L None _).
    destruct (get t id m); simpl; [done|]. by rewrite lookup_empty.
Qed.

Lemma field_merge_other t id t' id' f A m :
  (t, id) ≠ (t', id') → field t' id' f (merge t id A m) = field t' id' f m.
Proof. intros Hne. unfold field. by rewrite get_merge_other. Qed.

Lemma get_merge_map t id (mm : table) m :
  get t id (merge_map t mm m) =
    match mm !! id with
    | Some new => Some (new ∪ default ∅ (get t id m))
    | None => get t id m
    end.
Proof.
  unfold merge_map, spread, get. rewrite lookup_insert_eq. simpl.
  rewrite lookup_union_with.
  destruct (mm !! id) as [new|], (m !! t) as [tbl|]; simpl.
  - destruct (tbl !! id); simpl; [done|]. by rewrite (right_id_L ∅ (∪)).
  - by rewrite lookup_empty, (right_id_L ∅ (∪)).
  - by destruct (tbl !! id).
  - by rewrite lookup_empty.
Qed.

Lemma get_merge_map_other t t' id (mm : table) m :
  t ≠ t' → get t' id (merge_map t mm m) = get t' id m.
Proof. intros Hne. unfold merge_map, get. by rewrite lookup_insert_ne. Qed.

Lemma field_merge_map t id f (mm : table) m :
  field t id f (merge_map t mm m) =
    match mm !! id ≫= (.!! f) with
    | Some v => Some v
    | None => field t id f m
    end.
Proof.
  unfold field. rewrite get_merge_map.
  destruct (mm !! id) as [new|]; simpl; [|done].
  rewrite lookup_union. destruct (new !! f) as [v|].
  - by destruct (default ∅ (get t id m) !! f).
  - rewrite (left_id_L None _).
    destruct (get t id m); simpl; [done|]. by rewrite lookup_empty.
Qed.

Lemma field_merge_map_other t t' id f (mm : table) m :
  t ≠ t' → field t' id f (merge_map t mm m) = field t' id f m.
Proof. intros Hne. unfold field. by rewrite get_merge_map_other. Qed.
End store_laws.

(** C5. Merging a payload twice gives the same store as merging it once;
    a merge always leaves a record under the id, made of the payload's
    fields over those of the record that was there (just the payload when
    there was none); after merging A then B each field holds B's value,
    else A's, else the value it had; and two payloads with no field in
    common can be merged in either order. *)
Theorem merge_idempotent_union_commutes (t id : string) (A B : record)
    (m : model_store) :
  merge t id A (merge t id A m) = merge t id A m
  ∧ get t id (merge t id A m) = Some (A ∪ default ∅ (get t id m))
  ∧ (get t id m = None → get t id (merge t id A m) = Some A)
  ∧ (∀ f, field t id f (merge t id B (merge t id A m)) =
            match B !! f with
            | Some v => Some v
            | None => match A !! f with
                      | Some v => Some v
                      | None => field t id f m
                      end
            end)
  ∧ (dom A ## dom B →
     merge t id B (merge t id A m) = merge t id A (merge t id B m)).
Proof.
  split_and!.
  - by rewrite merge_merge, (idemp_L (∪)).
  - apply get_merge.
  - intros Habs. rewrite get_merge, Habs. simpl.
    by rewrite (right_id_L ∅ (∪)).
  - intros f. by rewrite !field_merge.
  - intros Hdisj. rewrite !merge_merge. f_equal.
    apply map_union_comm. by apply map_disjoint_dom.
Qed.

Lemma merge_idempotent_union_commutes_witness :
  get "units" demo_unit (∅ : model_store) = None
  ∧ dom demo_metadata ## dom demo_dates
  ∧ get "units" demo_unit (merge "units" demo_unit demo_metadata ∅)
    = Some demo_metadata
  ∧ merge "units" demo_unit demo_dates (merge "units" demo_unit demo_metadata ∅)
    = merge "units" demo_unit demo_metadata (merge "units" demo_unit demo_dates ∅).
Proof.
  assert (Habs : get "units" demo_unit (∅ : model_store) = None)
    by reflexivity.
  assert (Hdisj : dom demo_metadata ## dom demo_dates).
  { apply map_disjoint_dom, map_disjoint_singleton_r_2. reflexivity. }
  destruct (merge_idempotent_union_commutes "units" demo_unit
              demo_metadata demo_dates ∅)
    as (_ & _ & Hcreate & _ & Hcomm).
  exact (conj Habs (conj Hdisj (conj (Hcreate Habs) (Hcomm Hdisj)))).
Defined.

(** ** The event loop *)

Lemma run_snoc sched id o w :
  run (sched ++ [(id, o)]) w = settle id o (run sched w).
Proof. unfold run. by rewrite foldl_app. Qed.

(** Once nobody waits, settlements change nothing. *)
Lemma run_idle sched w : waiting w = [] → run sched w = w.
Proof.
  intros Hidle. induction sched as [|[id o] sched IH] using rev_ind;
    [reflexivity|].
  rewrite run_snoc, IH. unfold settle. by rewrite Hidle.
Qed.

Lemma bool_decide_elem_snoc (x id : nat) (ids : list nat) :
  bool_decide (x ∈ ids ++ [id]) = bool_decide (x ∈ ids) || Nat.eqb id x.
Proof.
  destruct (Nat.eqb_spec id x) as [->|Hne].
  - rewrite orb_true_r. apply bool_decide_eq_true_2, elem_of_app.
    right. by left.
  - rewrite orb_false_r. apply bool_decide_ext.
    rewrite elem_of_app, list_elem_of_singleton.
    split; [intros [?|?]; [done|congruence] | auto].
Qed.

(** ** [fetchTab] *)

Section fetchTab_runs.
Variables (s : app_state) (cid tab : string)
          (getTabData : string → api_call).

(** Settling one more request moves a run to the next phase, whatever
    the request and its outcome. *)
Lemma tab_phase_settle ids w id o :
  tab_phase s cid tab getTabData ids w →
  tab_phase s cid tab getTabData (ids ++ [id]) (settle id o w).
Proof.
  unfold tab_phase. rewrite !bool_decide_elem_snoc.
  destruct (bool_decide (0 ∈ ids)), (bool_decide (1 ∈ ids)).
  - intros (first & o1 & o2 & ->).
    destruct id as [|[|n]]; cbn [Nat.eqb orb];
      exists first, o1, o2; destruct first, o1, o2; loop; reflexivity.
  - intros (o1 & ->). destruct id as [|[|n]]; cbn [Nat.eqb orb].
    + exists o1. loop. reflexivity.
    + exists true, o1, o. reflexivity.
    + exists o1. loop. reflexivity.
  - intros (o2 & ->). destruct id as [|[|n]]; cbn [Nat.eqb orb].
    + exists false, o, o2. reflexivity.
    + exists o2. loop. reflexivity.
    + exists o2. loop. reflexivity.
  - intros ->. destruct id as [|[|n]]; cbn [Nat.eqb orb].
    + by exists o.
    + by exists o.
    + loop. reflexivity.
Qed.

Lemma tab_phase_run sched :
  tab_phase s cid tab getTabData sched.*1
    (run sched (tab_started s cid tab getTabData)).
Proof.
  induction sched as [|[id o] sched IH] using rev_ind; [reflexivity|].
  rewrite fmap_app, run_snoc. by apply tab_phase_settle.
Qed.
End fetchTab_runs.

(** C1. When one of the two requests of [fetchTab] is rejected, in
    whichever order they settle and whatever the other one brings, the one
    terminal transition dispatched is the failure of the course, the
    course is left [failed], and [logError] has been called with the
    reason of every rejected request. *)
Theorem fetchTab_any_failure_fails (s : app_state) (cid tab : string)
    (getTabData : string → api_call) (metadata_first : bool)
    (metadata tabData : outcome) :
  is_fulfilled metadata && is_fulfilled tabData = false →
  let w := tab_settled s cid tab getTabData metadata_first metadata tabData in
  terminals (trace w) = [fetchTabFailure cid]
  ∧ courseStatus (state w) = failed
  ∧ courseId (state w) = Some cid
  ∧ logged (trace w) ≠ []
  ∧ (∀ reason, metadata = Rejected reason ∨ tabData = Rejected reason →
               reason ∈ logged (trace w)).
Proof.
  intros Hfail w. subst w.
  destruct metadata_first, metadata, tabData; try discriminate Hfail; loop.
  all: split_and!; try done.
  all: intros r [?|?]; simplify_eq; cbn; set_solver.
Qed.

Lemma fetchTab_any_failure_fails_witness :
  is_fulfilled (Fulfilled demo_metadata) && is_fulfilled (Rejected network_error)
    = false
  ∧ courseStatus
      (state (tab_settled initial_state demo_course "dates" getDatesTabData
                false (Fulfilled demo_metadata) (Rejected network_error)))
    = failed
  ∧ network_error
      ∈ logged
          (trace (tab_settled initial_state demo_course "dates"
                    getDatesTabData false (Fulfilled demo_metadata)
                    (Rejected network_error))).
Proof.
  assert (Hfail : is_fulfilled (Fulfilled demo_metadata)
                  && is_fulfilled (Rejected network_error) = false)
    by reflexivity.
  destruct (fetchTab_any_failure_fails initial_state demo_course "dates"
              getDatesTabData false (Fulfilled demo_metadata)
              (Rejected network_error) Hfail)
    as (_ & Hstatus & _ & _ & Hlog).
  exact (conj Hfail (conj Hstatus (Hlog _ (or_intror eq_refl)))).
Defined.

(** C2. In every run of [fetchTab], whatever is settled, in whatever
    order and however often: the [pending] transition is dispatched while
    the thunk runs, before the requests are even issued; the trace of the
    run extends that of the thunk; it holds one terminal transition when
    both requests have been settled and none before; whatever precedes a
    terminal transition contains the settlement of both requests; and the
    course is [loaded] or [failed] once both have settled, [pending]
    until then. *)
Theorem fetchTab_pending_then_one_terminal (s : app_state) (cid tab : string)
    (getTabData : string → api_call) (sched : list (nat * outcome)) :
  let w0 := tab_started s cid tab getTabData in
  let w := run sched w0 in
  let all_settled := bool_decide (0 ∈ sched.*1) && bool_decide (1 ∈ sched.*1) in
  trace w0 = [Invoked 0; Dispatched (fetchTabRequest cid);
              Issued 0 (getCourseHomeCourseMetadata cid);
              Issued 1 (getTabData cid); Resolved 0]
  ∧ courseStatus (state w0) = pending
  ∧ (∃ rest, trace w = trace w0 ++ rest)
  ∧ length (terminals (trace w)) = (if all_settled then 1 else 0)
  ∧ (∀ i a, trace w !! i = Some (Dispatched a) → is_terminal a = true →
            0 ∈ settled (take i (trace w)) ∧ 1 ∈ settled (take i (trace w)))
  ∧ (if all_settled
     then courseStatus (state w) = loaded ∨ courseStatus (state w) = failed
     else courseStatus (state w) = pending).
Proof.
  intros w0 w all_settled.
  pose proof (tab_phase_run s cid tab getTabData sched) as Hphase.
  fold w0 w in Hphase. unfold tab_phase in Hphase. subst all_settled.
  do 2 (split; [reflexivity|]).
  destruct (bool_decide (0 ∈ sched.*1)), (bool_decide (1 ∈ sched.*1));
    cbn [andb].
  - destruct Hphase as (first & o1 & o2 & ->).
    destruct first, o1, o2; loop.
    all: split_and!; [by eexists | reflexivity | | auto].
    all: intros; scan_lookup.
  - destruct Hphase as (o1 & ->). loop.
    split_and!; [by eexists | reflexivity | | reflexivity].
    intros; scan_lookup.
  - destruct Hphase as (o2 & ->). loop.
    split_and!; [by eexists | reflexivity | | reflexivity].
    intros; scan_lookup.
  - rewrite Hphase. loop.
    split_and!; [by exists [] | reflexivity | | reflexivity].
    intros; scan_lookup.
Qed.

Lemma fetchTab_pending_then_one_terminal_witness :
  trace (run [(1, Rejected network_error); (0, Fulfilled demo_metadata)]
             (tab_started initial_state demo_course "dates" getDatesTabData))
    !! 9 = Some (Dispatched (fetchTabFailure demo_course))
  ∧ 0 ∈ settled
          (take 9 (trace (run [(1, Rejected network_error);
                               (0, Fulfilled demo_metadata)]
                              (tab_started initial_state demo_course "dates"
                                           getDatesTabData))))
  ∧ 1 ∈ settled
          (take 9 (trace (run [(1, Rejected network_error);
                               (0, Fulfilled demo_metadata)]
                              (tab_started initial_state demo_course "dates"
                                           getDatesTabData)))).
Proof.
  assert (Hi : trace (run [(1, Rejected network_error);
                           (0, Fulfilled demo_metadata)]
                          (tab_started initial_state demo_course "dates"
                                       getDatesTabData))
                 !! 9 = Some (Dispatched (fetchTabFailure demo_course)))
    by reflexivity.
  destruct (fetchTab_pending_then_one_terminal initial_state demo_course
              "dates" getDatesTabData
              [(1, Rejected network_error); (0, Fulfilled demo_metadata)])
    as (_ & _ & _ & _ & Hbefore & _).
  exact (conj Hi (Hbefore 9 _ Hi eq_refl)).
Defined.

(** C4. When exactly one of the two requests of [fetchTab] is rejected,
    in whichever order they settle: the payload of the fulfilled one is
    handed to [addModel] under its entity type and is in the store
    afterwards, every field of it; [logError] is called once, with the
    reason of the rejected one; and the model of the fulfilled request is
    the only write to the store. *)
Theorem fetchTab_partial_failure (s : app_state) (cid tab : string)
    (getTabData : string → api_call) (metadata_first : bool)
    (value : record) (reason : jsval) :
  let model := tab_model cid value in
  let key := to_key (prop model "id") in
  (let w := tab_settled s cid tab getTabData metadata_first
                        (Fulfilled value) (Rejected reason) in
   dispatched (trace w) =
     [fetchTabRequest cid; addModel "courses" model; fetchTabFailure cid]
   ∧ logged (trace w) = [reason]
   ∧ models (state w) = merge "courses" key model (models s)
   ∧ ∃ r, get "courses" key (models (state w)) = Some r ∧ value ⊆ r)
  ∧
  (let w := tab_settled s cid tab getTabData metadata_first
                        (Rejected reason) (Fulfilled value) in
   dispatched (trace w) =
     [fetchTabRequest cid; addModel tab model; fetchTabFailure cid]
   ∧ logged (trace w) = [reason]
   ∧ models (state w) = merge tab key model (models s)
   ∧ ∃ r, get tab key (models (state w)) = Some r ∧ value ⊆ r).
Proof.
  intros model key.
  assert (Hsub : ∀ old : record, value ⊆ model ∪ old).
  { intros old. etrans; [|apply map_union_subseteq_l].
    apply map_union_subseteq_l. }
  split; intros w; subst w; destruct metadata_first; loop.
  all: split_and!; try reflexivity.
  all: eexists; split; [apply get_merge | apply Hsub].
Qed.

(** C9. The promise of [fetchTab]'s thunk is fulfilled in the run of the
    thunk itself, right after the [pending] dispatch and the issue of the
    two requests: at that point nothing has settled, no model has been
    written and no terminal transition dispatched.  Whatever is settled
    afterwards only extends the trace: every other dispatch comes after
    the fulfilment, and no promise is fulfilled again, so nothing tells
    the caller that the continuation has run. *)
Theorem fetchTab_returns_before_settlement (s : app_state) (cid tab : string)
    (getTabData : string → api_call) (sched : list (nat * outcome)) :
  let w0 := tab_started s cid tab getTabData in
  let w := run sched w0 in
  trace w0 = [Invoked 0; Dispatched (fetchTabRequest cid);
              Issued 0 (getCourseHomeCourseMetadata cid);
              Issued 1 (getTabData cid); Resolved 0]
  ∧ models (state w0) = models s
  ∧ trace w !! 4 = Some (Resolved 0)
  ∧ (∃ rest, trace w = trace w0 ++ rest ∧ resolved rest = [])
  ∧ (∀ i id o, trace w !! i = Some (Settled id o) → 4 < i)
  ∧ (∀ i a, trace w !! i = Some (Dispatched a) → i = 1 ∨ 4 < i).
Proof.
  intros w0 w.
  pose proof (tab_phase_run s cid tab getTabData sched) as Hphase.
  fold w0 w in Hphase. unfold tab_phase in Hphase.
  do 2 (split; [reflexivity|]).
  destruct (bool_decide (0 ∈ sched.*1)), (bool_decide (1 ∈ sched.*1)).
  - destruct Hphase as (first & o1 & o2 & ->).
    destruct first, o1, o2; loop.
    all: split_and!; [reflexivity | by eexists | | ].
    all: intros; scan_lookup; auto with lia.
  - destruct Hphase as (o1 & ->). loop.
    split_and!; [reflexivity | by eexists | | ].
    all: intros; scan_lookup; auto with lia.
  - destruct Hphase as (o2 & ->). loop.
    split_and!; [reflexivity | by eexists | | ].
    all: intros; scan_lookup; auto with lia.
  - rewrite Hphase. loop.
    split_and!; [reflexivity | by exists [] | | ].
    all: intros; scan_lookup; auto with lia.
Qed.

Lemma fetchTab_returns_before_settlement_witness :
  trace (run [(0, Fulfilled demo_metadata); (1, Fulfilled demo_dates)]
             (tab_started initial_state demo_course "dates" getDatesTabData))
    !! 9 = Some (Dispatched (fetchTabSuccess demo_course))
  ∧ (9 = 1 ∨ 4 < 9).
Proof.
  assert (Hi : trace (run [(0, Fulfilled demo_metadata);
                           (1, Fulfilled demo_dates)]
                          (tab_started initial_state demo_course "dates"
                                       getDatesTabData))
                 !! 9 = Some (Dispatched (fetchTabSuccess demo_course)))
    by reflexivity.
  destruct (fetchTab_returns_before_settlement initial_state demo_course
              "dates" getDatesTabData
              [(0, Fulfilled demo_metadata); (1, Fulfilled demo_dates)])
    as (_ & _ & _ & _ & _ & Hafter).
  exact (conj Hi (Hafter 9 _ Hi)).
Defined.

(** ** [resetDeadlines] *)

(** C10. [resetDeadlines] issues the update and returns.  When the update
    is fulfilled the callback dispatches the thunk [getTabData(courseId)],
    and that is all it does; when it is rejected nothing is dispatched,
    [logError] is not called, no status transition is emitted and the
    store stays as it was, whatever is settled afterwards: the rejection
    is left unhandled. *)
Theorem resetDeadlines_refetches_only_on_success (s : app_state)
    (cid : string) (getTabData : string → prog) :
  let w0 := deadlines_started s cid getTabData in
  trace w0 = [Invoked 0; Issued 0 (updateCourseDeadlines cid); Resolved 0]
  ∧ state w0 = s
  ∧ (∀ value,
       settle 0 (Fulfilled value) w0 =
       invoke (getTabData cid)
              (emit (Settled 0 (Fulfilled value)) (set_waiting [] w0)))
  ∧ (∀ reason sched,
       let w := run sched (settle 0 (Rejected reason) w0) in
       trace w = trace w0 ++ [Settled 0 (Rejected reason); Unhandled reason]
       ∧ dispatched (trace w) = []
       ∧ logged (trace w) = []
       ∧ terminals (trace w) = []
       ∧ state w = s).
Proof.
  intros w0. subst w0. split_and!; try reflexivity.
  intros reason sched w. subst w.
  rewrite run_idle by reflexivity. by loop.
Qed.

(** C7. At a rejection of [updateCourseDeadlines], [resetDeadlines] calls
    [logError] with nothing and moves no status to [failed]: the error
    ends as an unhandled rejection.  ([fetchTab] in the same file logs the
    reason of each rejected request and dispatches the failure.) *)
Example resetDeadlines_rejection_is_not_reported :
  trace (settle 0 (Rejected network_error)
           (deadlines_started initial_state demo_course fetchDatesTab))
    = [Invoked 0; Issued 0 (updateCourseDeadlines demo_course); Resolved 0;
       Settled 0 (Rejected network_error); Unhandled network_error]
  ∧ logged (trace (settle 0 (Rejected network_error)
                     (deadlines_started initial_state demo_course
                                        fetchDatesTab))) = []
  ∧ courseStatus (state (settle 0 (Rejected network_error)
                           (deadlines_started initial_state demo_course
                                              fetchDatesTab))) = idle.
Proof. by loop. Qed.

(** ** [saveSequencePosition] *)

Lemma stored_position_updateModel sid v s :
  stored_position sid
    (reducer (updateModel "sequences"
                {[ "id" := VStr sid; "position" := v ]}) s) = v.
Proof.
  unfold stored_position, reducer, set_models, prop at 2. cbn [models].
  rewrite lookup_insert_eq. cbn [default from_option id to_key].
  rewrite get_merge. cbn [default from_option id].
  unfold prop. erewrite lookup_union_Some_l; [reflexivity|].
  rewrite lookup_insert_ne by done. apply lookup_singleton_eq.
Qed.

(** C3. [saveSequencePosition] writes the new position at once and issues
    the request.  When the request is fulfilled the stored position is
    the new value and nothing is logged; when it is rejected the stored
    position is again the value read before the write, and [logError] has
    been called with the error.  Either way the thunk has then run to its
    end and waits for nothing. *)
Theorem saveSequencePosition_commits_or_rolls_back (s : app_state)
    (cid sid : string) (newValue : jsval) :
  let w0 := position_saving s cid sid newValue in
  stored_position sid (state w0) = newValue
  ∧ trace w0 = [Invoked 0;
                Dispatched (updateModel "sequences"
                              {[ "id" := VStr sid; "position" := newValue ]});
                Issued 0 (postSequencePosition cid sid newValue)]
  ∧ (∀ response,
       let w := settle 0 (Fulfilled response) w0 in
       stored_position sid (state w) = newValue
       ∧ logged (trace w) = []
       ∧ resolved (trace w) = [0]
       ∧ waiting w = [])
  ∧ (∀ error,
       let w := settle 0 (Rejected error) w0 in
       stored_position sid (state w) = stored_position sid s
       ∧ logged (trace w) = [error]
       ∧ resolved (trace w) = [0]
       ∧ waiting w = []).
Proof.
  intros w0. subst w0. split_and!.
  - loop. apply stored_position_updateModel.
  - reflexivity.
  - intros response w. subst w. loop. split_and!; try reflexivity.
    apply stored_position_updateModel.
  - intros error w. subst w. loop. split_and!; try reflexivity.
    apply stored_position_updateModel.
Qed.

(** ** [fetchCourse] *)

Lemma access_denied_prop r r' :
  prop r "canLoadCourseware" = prop r' "canLoadCourseware" →
  access_denied r = access_denied r'.
Proof. unfold access_denied. by intros ->. Qed.

Lemma access_denied_lookup metadata :
  access_denied metadata = true →
  ∃ access, metadata !! "canLoadCourseware" = Some (VObj access).
Proof.
  unfold access_denied, prop.
  destruct (metadata !! "canLoadCourseware") as [[]|]; try discriminate.
  eauto.
Qed.

Lemma key_of_resource_id (rid : string) (r : record) :
  to_key (prop (spread r {[ "id" := VStr rid ]}) "id") = rid.
Proof.
  unfold prop, spread.
  by rewrite (lookup_union_Some_l _ _ _ (VStr rid))
    by apply lookup_singleton_eq.
Qed.

(** C6. When both requests of [fetchCourse] are fulfilled and the
    metadata carries the denial signal, in whichever order they settle:
    the one terminal transition is the denial, the course is [denied],
    nothing is logged, and the store holds the course under its id with
    the access field of the metadata, which still reads as a denial. *)
Theorem fetchCourse_denied_keeps_course (s : app_state) (cid : string)
    (metadata_first : bool) (metadata blocks : record) :
  access_denied metadata = true →
  let w := course_settled s cid metadata_first
                          (Fulfilled metadata) (Fulfilled blocks) in
  terminals (trace w) = [fetchCourseDenied cid]
  ∧ courseStatus (state w) = denied
  ∧ courseId (state w) = Some cid
  ∧ logged (trace w) = []
  ∧ ∃ course,
      get "courses" cid (models (state w)) = Some course
      ∧ prop course "canLoadCourseware" = prop metadata "canLoadCourseware"
      ∧ access_denied course = true.
Proof.
  intros Hdenied w. subst w.
  destruct (access_denied_lookup _ Hdenied) as [access Haccess].
  assert (Hsame : ∀ old : record,
            prop (spread metadata {[ "id" := VStr cid ]} ∪ old)
                 "canLoadCourseware"
            = prop metadata "canLoadCourseware").
  { intros old. unfold prop, spread.
    erewrite lookup_union_Some_l; [by rewrite Haccess|].
    rewrite lookup_union_r by (by apply lookup_singleton_ne).
    exact Haccess. }
  destruct metadata_first; loop; rewrite Hdenied; loop.
  all: split_and!; try reflexivity.
  all: unfold reducer, set_models, set_course; cbn [models].
  all: rewrite !get_merge_map_other by done.
  all: rewrite key_of_resource_id, get_merge.
  all: eexists; split; [reflexivity|].
  all: split; [apply Hsame|].
  all: by rewrite (access_denied_prop _ metadata) by apply Hsame.
Qed.

Lemma fetchCourse_denied_keeps_course_witness :
  access_denied forbidden_metadata = true
  ∧ courseStatus
      (state (course_settled initial_state demo_course true
                (Fulfilled forbidden_metadata) (Fulfilled demo_blocks)))
    = denied.
Proof.
  assert (Hdenied : access_denied forbidden_metadata = true) by reflexivity.
  destruct (fetchCourse_denied_keeps_course initial_state demo_course true
              forbidden_metadata demo_blocks Hdenied)
    as (_ & Hstatus & _).
  exact (conj Hdenied Hstatus).
Defined.

(** ** [fetchSequence] after [fetchCourse] *)

Lemma field_sequence_merged sid payload t id f (m : model_store) :
  let model := spread (default ∅ (as_record (prop payload "sequence")))
                      {[ "id" := VStr sid ]} in
  field t id f
    (merge_map "units" (entities payload "units")
       (merge "sequences" sid model m)) =
  match sequence_supplies sid payload t id f with
  | Some v => Some v
  | None => field t id f m
  end.
Proof.
  intros model. unfold sequence_supplies. fold model.
  case_bool_decide as Hseq.
  - destruct Hseq as [-> ->].
    rewrite field_merge_map_other by done. apply field_merge.
  - case_bool_decide as Hunits.
    + subst t. rewrite field_merge_map.
      by rewrite field_merge_other by (intros [= ? ?]; done).
    + rewrite field_merge_map_other by done.
      rewrite field_merge_other; [done|].
      intros [= <- <-]. by apply Hseq.
Qed.

(** C8, as stated, fails: a field the course fetch has set and the
    sequence payload brings again takes the payload's value. *)
Lemma fetchSequence_overwrites_shared_field :
  field "sequences" demo_sequence "title"
    (models (state (course_loaded initial_state demo_course
                      demo_metadata demo_blocks)))
    = Some (VStr "Intro")
  ∧ field "sequences" demo_sequence "title"
      (models (state (sequence_after_course initial_state demo_course
                        demo_sequence demo_metadata demo_blocks
                        (Fulfilled demo_sequence_metadata))))
    = Some (VStr "Introduction")
  ∧ VStr "Introduction" ≠ VStr "Intro".
Proof.
  split_and!.
  - vm_compute. reflexivity.
  - vm_compute. reflexivity.
  - discriminate.
Qed.

(** C8, amended. After a sequence fetch that follows the fetch of its
    course, the sequence is [loaded] and every field of every record
    holds what the sequence payload supplies for it, or else what the
    course fetch had left there.  So every field the course fetch had set
    is still present, and it is unchanged unless the payload supplies
    that very field, whose value then wins. *)
Theorem fetchSequence_merges_over_course_records (s : app_state)
    (cid sid : string) (metadata blocks payload : record) (t id f : string) :
  let w1 := course_loaded s cid metadata blocks in
  let w2 := sequence_after_course s cid sid metadata blocks
                                  (Fulfilled payload) in
  sequenceStatus (state w2) = loaded
  ∧ field t id f (models (state w2)) =
      match sequence_supplies sid payload t id f with
      | Some v => Some v
      | None => field t id f (models (state w1))
      end
  ∧ (is_Some (field t id f (models (state w1))) →
     is_Some (field t id f (models (state w2))))
  ∧ (sequence_supplies sid payload t id f = None →
     field t id f (models (state w2)) = field t id f (models (state w1))).
Proof.
  intros w1 w2.
  assert (Hfield : field t id f (models (state w2)) =
            match sequence_supplies sid payload t id f with
            | Some v => Some v
            | None => field t id f (models (state w1))
            end).
  { subst w1 w2. loop. destruct (access_denied metadata); loop.
    all: unfold reducer at 1 2 3; unfold set_models, set_sequence.
    all: cbn [models]; rewrite key_of_resource_id.
    all: apply field_sequence_merged. }
  split_and!.
  - subst w2. loop. by destruct (access_denied metadata).
  - exact Hfield.
  - rewrite Hfield. by destruct (sequence_supplies sid payload t id f).
  - intros Hnone. by rewrite Hfield, Hnone.
Qed.

Lemma fetchSequence_merges_over_course_records_witness :
  is_Some (field "units" demo_unit "title"
             (models (state (course_loaded initial_state demo_course
                               demo_metadata demo_blocks))))
  ∧ sequence_supplies demo_sequence demo_sequence_metadata
      "units" demo_unit "title" = None
  ∧ field "units" demo_unit "title"
      (models (state (sequence_after_course initial_state demo_course
                        demo_sequence demo_metadata demo_blocks
                        (Fulfilled demo_sequence_metadata))))
    = field "units" demo_unit "title"
        (models (state (course_loaded initial_state demo_course
                          demo_metadata demo_blocks)))
  ∧ is_Some (field "units" demo_unit "title"
               (models (state (sequence_after_course initial_state
                                 demo_course demo_sequence demo_metadata
                                 demo_blocks
                                 (Fulfilled demo_sequence_metadata))))).
Proof.
  assert (Hset : is_Some (field "units" demo_unit "title"
                    (models (state (course_loaded initial_state demo_course
                                      demo_metadata demo_blocks)))))
    by (exists (VStr "Welcome"); vm_compute; reflexivity).
  assert (Hnone : sequence_supplies demo_sequence demo_sequence_metadata
                    "units" demo_unit "title" = None)
    by (vm_compute; reflexivity).
  destruct (fetchSequence_merges_over_course_records initial_state
              demo_course demo_sequence demo_metadata demo_blocks
              demo_sequence_metadata "units" demo_unit "title")
    as (_ & _ & Hkept & Hframe).
  exact (conj Hset (conj Hnone (conj (Hframe Hnone) (Hkept Hset)))).
Defined.

(** ** The scenarios of the integration tests, replayed *)

(** Network errors on both endpoints: the course is [failed], both errors
    are logged and the store holds no course. *)
Example fetchCourse_network_errors :
  courseStatus
    (state (course_settled initial_state demo_course true
              (Rejected network_error) (Rejected network_error))) = failed
  ∧ logged
      (trace (course_settled initial_state demo_course true
                (Rejected network_error) (Rejected network_error)))
    = [network_error; network_error]
  ∧ get "courses" demo_course
      (models (state (course_settled initial_state demo_course true
                        (Rejected network_error) (Rejected network_error))))
    = None.
Proof. vm_compute. by split_and!. Qed.

(** Both payloads arrive: the course is [loaded] and holds its access
    field; the blocks of the tree are there under their own ids. *)
Example fetchCourse_loaded :
  courseStatus
    (state (course_loaded initial_state demo_course demo_metadata demo_blocks))
    = loaded
  ∧ field "courses" demo_course "canLoadCourseware"
      (models (state (course_loaded initial_state demo_course
                        demo_metadata demo_blocks)))
    = Some (VObj {[ "hasAccess" := VBool true ]})
  ∧ field "units" demo_unit "title"
      (models (state (course_loaded initial_state demo_course
                        demo_metadata demo_blocks)))
    = Some (VStr "Welcome").
Proof. vm_compute. by split_and!. Qed.

(** The sequence fetch that follows adds its fields to the records the
    course fetch has made. *)
Example fetchSequence_adds_fields :
  field "sequences" demo_sequence "activeUnitIndex"
    (models (state (sequence_after_course initial_state demo_course
                      demo_sequence demo_metadata demo_blocks
                      (Fulfilled demo_sequence_metadata))))
    = Some (VNum 0)
  ∧ field "units" demo_unit "complete"
      (models (state (sequence_after_course initial_state demo_course
                        demo_sequence demo_metadata demo_blocks
                        (Fulfilled demo_sequence_metadata))))
    = Some VNull
  ∧ field "units" demo_unit "title"
      (models (state (sequence_after_course initial_state demo_course
                        demo_sequence demo_metadata demo_blocks
                        (Fulfilled demo_sequence_metadata))))
    = Some (VStr "Welcome").
Proof. vm_compute. by split_and!. Qed.

(** A deadline reset that succeeds refetches the dates tab: the refetch is
    a second call, with requests 1 and 2, and loads the course. *)
Example resetDeadlines_then_refetch :
  dispatched
    (trace (run [(0, Fulfilled ∅); (2, Fulfilled demo_dates);
                 (1, Fulfilled demo_metadata)]
                (deadlines_started initial_state demo_course fetchDatesTab)))
    = [fetchTabRequest demo_course;
       addModel "courses" (tab_model demo_course demo_metadata);
       addModel "dates" (tab_model demo_course demo_dates);
       fetchTabSuccess demo_course]
  ∧ courseStatus
      (state (run [(0, Fulfilled ∅); (2, Fulfilled demo_dates);
                   (1, Fulfilled demo_metadata)]
                  (deadlines_started initial_state demo_course fetchDatesTab)))
    = loaded.
Proof. by loop. Qed.

(** * Further properties of [thunks.js] *)

(** ** The store, two records apart *)

Lemma merge_commute (t1 id1 t2 id2 : string) (A B : record) (m : model_store) :
  (t1, id1) ≠ (t2, id2) →
  merge t1 id1 A (merge t2 id2 B m) = merge t2 id2 B (merge t1 id1 A m).
Proof.
  intros Hne. unfold merge, spread.
  destruct (decide (t1 = t2)) as [->|Ht].
  - assert (Hid : id1 ≠ id2) by congruence.
    rewrite !lookup_insert_eq. cbn [default from_option id].
    rewrite !insert_insert_eq.
    rewrite !lookup_insert_ne by done.
    f_equal. by apply insert_insert_ne.
  - rewrite !lookup_insert_ne by done.
    by apply insert_insert_ne.
Qed.

Lemma merge_twice (t id : string) (A : record) (m : model_store) :
  merge t id A (merge t id A m) = merge t id A m.
Proof. by rewrite merge_merge, (idemp_L (∪)). Qed.

(** ** [fetchTab], every outcome *)

(** X1. What [fetchTab] does with the two results does not depend on the
    order in which the requests settle: the state reached, the actions
    dispatched and the errors logged are the same.  The callback takes
    the results in the order of the requests: the course model before the
    tab model, the reason of the metadata request before that of the tab
    request, the terminal action last. *)
Theorem fetchTab_effects_follow_request_order (s : app_state) (cid tab : string)
    (getTabData : string → api_call)
    (metadata tabData : outcome) :
  let w1 := tab_settled s cid tab getTabData true metadata tabData in
  let w2 := tab_settled s cid tab getTabData false metadata tabData in
  state w1 = state w2
  ∧ dispatched (trace w1) = dispatched (trace w2)
  ∧ logged (trace w1) = logged (trace w2)
  ∧ dispatched (trace w1) =
      fetchTabRequest cid
        :: omap id [tab_write cid "courses" metadata; tab_write cid tab tabData]
        ++ [tab_terminal cid metadata tabData]
  ∧ logged (trace w1) = omap reason_of [metadata; tabData].
Proof.
  intros w1 w2. subst w1 w2. destruct metadata, tabData; loop.
  all: by split_and!.
Qed.

(** X2. When both requests are fulfilled, [fetchTab] logs nothing, leaves
    the course [loaded] and has written both models, the course model
    first: the store holds every field of the tab payload under the tab's
    entity type. *)
Theorem fetchTab_success_writes_both (s : app_state) (cid tab : string)
    (getTabData : string → api_call)
    (metadata_first : bool) (metadata tabData : record) :
  let w := tab_settled s cid tab getTabData metadata_first
                       (Fulfilled metadata) (Fulfilled tabData) in
  let key1 := to_key (prop (tab_model cid metadata) "id") in
  let key2 := to_key (prop (tab_model cid tabData) "id") in
  logged (trace w) = []
  ∧ terminals (trace w) = [fetchTabSuccess cid]
  ∧ courseStatus (state w) = loaded
  ∧ models (state w) =
      merge tab key2 (tab_model cid tabData)
        (merge "courses" key1 (tab_model cid metadata) (models s))
  ∧ ∃ r, get tab key2 (models (state w)) = Some r ∧ tabData ⊆ r.
Proof.
  intros w key1 key2. subst w. destruct metadata_first; loop.
  all: split_and!; try reflexivity.
  all: eexists; split; [apply get_merge|].
  all: etrans; [|apply map_union_subseteq_l]; apply map_union_subseteq_l.
Qed.

(** X3. When both requests are rejected, [fetchTab] writes nothing: the
    models are those it found, the only actions dispatched are the
    request and the failure, and the two reasons are logged, that of the
    metadata request first. *)
Theorem fetchTab_both_rejected_writes_nothing (s : app_state) (cid tab : string)
    (getTabData : string → api_call)
    (metadata_first : bool) (reason1 reason2 : jsval) :
  let w := tab_settled s cid tab getTabData metadata_first
                       (Rejected reason1) (Rejected reason2) in
  models (state w) = models s
  ∧ dispatched (trace w) = [fetchTabRequest cid; fetchTabFailure cid]
  ∧ logged (trace w) = [reason1; reason2]
  ∧ courseStatus (state w) = failed.
Proof.
  intros w. subst w. by destruct metadata_first; loop.
Qed.

(** X4. Until both requests have settled, whatever the schedule, nothing
    shows of the one that has: its payload is not written, its error is
    not logged, and the request of the fetch is the only action
    dispatched. *)
Theorem fetchTab_waits_for_both (s : app_state) (cid tab : string)
    (getTabData : string → api_call)
    (sched : list (nat * outcome)) :
  bool_decide (0 ∈ sched.*1) && bool_decide (1 ∈ sched.*1) = false →
  let w := run sched (tab_started s cid tab getTabData) in
  dispatched (trace w) = [fetchTabRequest cid]
  ∧ logged (trace w) = []
  ∧ models (state w) = models s
  ∧ length (waiting w) = 1.
Proof.
  intros Hnot w.
  pose proof (tab_phase_run s cid tab getTabData sched) as Hphase.
  fold w in Hphase. unfold tab_phase in Hphase.
  destruct (bool_decide (0 ∈ sched.*1)), (bool_decide (1 ∈ sched.*1));
    try discriminate Hnot.
  - destruct Hphase as (o1 & ->). by loop.
  - destruct Hphase as (o2 & ->). by loop.
  - rewrite Hphase. by loop.
Qed.

(** X5. [fetchTab] issues its two requests once, the metadata request
    first, both for the course it was called for, and none after: no
    schedule of settlements makes it issue a request again. *)
Theorem fetchTab_issues_two_requests (s : app_state) (cid tab : string)
    (getTabData : string → api_call)
    (sched : list (nat * outcome)) :
  issued (trace (run sched (tab_started s cid tab getTabData))) =
    [(0, getCourseHomeCourseMetadata cid); (1, getTabData cid)]
  ∧ invoked (trace (run sched (tab_started s cid tab getTabData))) = [0].
Proof.
  pose proof (tab_phase_run s cid tab getTabData sched) as Hphase.
  unfold tab_phase in Hphase.
  destruct (bool_decide (0 ∈ sched.*1)), (bool_decide (1 ∈ sched.*1)).
  - destruct Hphase as (first & o1 & o2 & ->).
    by destruct first, o1, o2; loop.
  - destruct Hphase as (o1 & ->). by loop.
  - destruct Hphase as (o2 & ->). by loop.
  - rewrite Hphase. by loop.
Qed.

Lemma fetchTab_waits_for_both_witness :
  bool_decide (0 ∈ [(1, Rejected network_error)].*1)
    && bool_decide (1 ∈ [(1, Rejected network_error)].*1) = false
  ∧ logged (trace (run [(1, Rejected network_error)]
                       (tab_started initial_state demo_course "dates"
                                    getDatesTabData))) = [].
Proof.
  assert (Hnot : bool_decide (0 ∈ [(1, Rejected network_error)].*1)
                 && bool_decide (1 ∈ [(1, Rejected network_error)].*1)
                 = false) by reflexivity.
  destruct (fetchTab_waits_for_both initial_state demo_course "dates"
              getDatesTabData [(1, Rejected network_error)] Hnot)
    as (_ & Hlog & _).
  exact (conj Hnot Hlog).
Defined.



(** ** [resetDeadlines] with a [fetchTab] thunk *)

(** X7. Once the update is fulfilled, the refetch [resetDeadlines]
    dispatches does what a direct dispatch of the same [fetchTab] thunk
    does: whatever its two requests bring and in whichever order, the
    state reached, the actions dispatched and the errors logged are those
    of [fetchTab] run on its own, and no rejection is left unhandled.
    The response of the update plays no part. *)
Theorem resetDeadlines_refetch_is_fetchTab (s : app_state) (cid tab : string)
    (getTabData : string → api_call) (response : record)
    (metadata_first : bool) (metadata tabData : outcome) :
  let w := deadlines_refetched s cid tab getTabData response
                               metadata_first metadata tabData in
  let direct := tab_settled s cid tab getTabData metadata_first
                            metadata tabData in
  state w = state direct
  ∧ dispatched (trace w) = dispatched (trace direct)
  ∧ logged (trace w) = logged (trace direct)
  ∧ unhandled (trace w) = []
  ∧ issued (trace w) =
      [(0, updateCourseDeadlines cid);
       (1, getCourseHomeCourseMetadata cid); (2, getTabData cid)].
Proof.
  intros w direct. subst w direct. unfold deadlines_refetched.
  destruct metadata_first, metadata, tabData; loop.
  all: by split_and!.
Qed.

(** ** [fetchTab] dispatched more than once *)


Lemma merge_pair_twice (t1 k1 t2 k2 : string) (A B : record) (m : model_store) :
  merge t2 k2 B (merge t1 k1 A (merge t2 k2 B (merge t1 k1 A m))) =
  merge t2 k2 B (merge t1 k1 A m).
Proof.
  destruct (decide ((t1, k1) = (t2, k2))) as [[= -> ->]|Hne].
  - rewrite !merge_merge. f_equal. apply map_eq. intros f.
    rewrite !lookup_union. by destruct (A !! f), (B !! f).
  - rewrite (merge_commute t1 k1 t2 k2 A B) by done.
    by rewrite (merge_twice t1 k1 A), merge_twice.
Qed.

(** X9. Fetching again after a fetch has run to its end, with the same
    two outcomes coming back, reaches the state the first fetch had
    reached: the models written again merge into themselves, and the
    status is the one the outcomes stand for.  The second call issues its
    own two requests; nothing of the first is reused. *)
Theorem fetchTab_refetch_same_state (s : app_state) (cid tab : string)
    (getTabData : string → api_call) (metadata tabData : outcome) :
  state (tab_refetched s cid tab getTabData metadata tabData) =
    state (tab_settled s cid tab getTabData true metadata tabData)
  ∧ courseStatus (state (tab_refetched s cid tab getTabData metadata tabData))
    = tab_status metadata tabData
  ∧ issued (trace (tab_refetched s cid tab getTabData metadata tabData)) =
      [(0, getCourseHomeCourseMetadata cid); (1, getTabData cid);
       (2, getCourseHomeCourseMetadata cid); (3, getTabData cid)].
Proof.
  unfold tab_refetched.
  destruct metadata, tabData; loop.
  all: split_and!; try reflexivity.
  all: unfold reducer, set_models, set_course; cbn [models courseId
         courseStatus sequenceId sequenceStatus]; f_equal.
  - apply merge_pair_twice.
  - apply merge_twice.
  - apply merge_twice.
Qed.

(** ** [fetchDatesTab] and [fetchOutlineTab] *)

(** X10. The two tab thunks keep their data apart.  A dates fetch leaves
    every outline record as it found it; an outline fetch that follows
    leaves every dates record as the dates fetch left it and stores the
    outline payload under the outline type; and it requests the course
    metadata again, from the same endpoint, rather than reuse the copy
    the dates fetch has stored. *)
Theorem tab_thunks_keep_apart (s : app_state) (cid : string)
    (metadata1 dates metadata2 outline : record) :
  let w1 := tab_settled s cid "dates" getDatesTabData true
                        (Fulfilled metadata1) (Fulfilled dates) in
  let w2 := dates_then_outline s cid metadata1 dates metadata2 outline in
  (∀ k, get "outline" k (models (state w1)) = get "outline" k (models s))
  ∧ (∀ k, get "dates" k (models (state w2)) = get "dates" k (models (state w1)))
  ∧ (∃ r, get "outline" (to_key (prop (tab_model cid outline) "id"))
              (models (state w2)) = Some r ∧ outline ⊆ r)
  ∧ courseStatus (state w2) = loaded
  ∧ issued (trace w2) =
      [(0, getCourseHomeCourseMetadata cid); (1, getDatesTabData cid);
       (2, getCourseHomeCourseMetadata cid); (3, getOutlineTabData cid)].
Proof.
  intros w1 w2. subst w1 w2. unfold dates_then_outline. loop.
  unfold reducer, set_models, set_course; cbn [models courseStatus].
  split_and!; try reflexivity.
  - intros k. by rewrite !get_merge_other by (intros [= ? ?]; done).
  - intros k. by rewrite !get_merge_other by (intros [= ? ?]; done).
  - eexists. split; [apply get_merge|].
    etrans; [|apply map_union_subseteq_l]. apply map_union_subseteq_l.
Qed.

(** X11. [fetchTab] leaves no rejection unhandled: whatever its requests
    bring and however they are scheduled, a rejected request ends in the
    log or is still awaited, never as an unhandled rejection, and the
    promise of the thunk is fulfilled once and never rejected. *)
Theorem fetchTab_no_unhandled_rejection (s : app_state) (cid tab : string)
    (getTabData : string → api_call) (sched : list (nat * outcome)) :
  unhandled (trace (run sched (tab_started s cid tab getTabData))) = []
  ∧ resolved (trace (run sched (tab_started s cid tab getTabData))) = [0].
Proof.
  pose proof (tab_phase_run s cid tab getTabData sched) as Hphase.
  unfold tab_phase in Hphase.
  destruct (bool_decide (0 ∈ sched.*1)), (bool_decide (1 ∈ sched.*1)).
  - destruct Hphase as (first & o1 & o2 & ->).
    by destruct first, o1, o2; loop.
  - destruct Hphase as (o1 & ->). by loop.
  - destruct Hphase as (o2 & ->). by loop.
  - rewrite Hphase. by loop.
Qed.
